(** * ChatAzureFoundry: the Azure AI Inference chat adapter

    A shallow embedding of [browser_use/llm/azure_foundry/chat.py].

    The adapter is a Python dataclass with one piece of mutable state (the
    memoised SDK client).  Methods are embedded in a state-and-exception
    monad over the process state they can touch: the environment variables,
    the SDK clients built so far and the log of requests handed to the SDK. *)

From Stdlib Require Import SpecFloat.
From stdpp Require Import gmap strings list fin_maps.

Open Scope string_scope.

(** ** Python values and exceptions *)

(** Exceptions the adapter can see.  [ValueError] carries the message the
    source gives it; the text of interpreter-raised errors is not modelled.
    [SdkError] stands for whatever the SDK raises, identified by a payload. *)
Inductive exn : Type :=
  | ValueError (msg : string)
  | TypeError
  | IndexError
  | SdkError (payload : string).

Inductive result (A : Type) : Type :=
  | Ok (a : A)
  | Raise (e : exn).
Arguments Ok {A} a.
Arguments Raise {A} e.

(** Truthiness of an [Optional[str]]: [None] and the empty string are falsy. *)
Definition truthy (o : option string) : bool :=
  match o with
  | None => false
  | Some s => negb (String.eqb s "")
  end.

(** [a or b]. *)
Definition py_or (a b : option string) : option string :=
  if truthy a then a else b.

Module messages.
(** Modelled from the spec: [browser_use.llm.messages.BaseMessage] is not
    among the sources; the adapter reads a [role], which it compares with
    string literals, and a textual [content]. *)
Record BaseMessage : Type := { role : string; content : string }.
End messages.

Module models.
(** [azure.ai.inference.models]: the three request message classes, each
    built from a [content] keyword. *)
Inductive ChatRequestMessage : Type :=
  | SystemMessage (content : string)
  | UserMessage (content : string)
  | AssistantMessage (content : string).

(** Modelled from the spec: the value the SDK returns is used only through
    [choices[0].message.content] and
    [usage.{prompt_tokens, completion_tokens, total_tokens}]. *)
Record ChatResponseMessage : Type := { content : string }.
Record ChatChoice : Type := { message : ChatResponseMessage }.
Record CompletionsUsage : Type :=
  { prompt_tokens : Z; completion_tokens : Z; total_tokens : Z }.
Record ChatCompletions : Type :=
  { choices : list ChatChoice; usage : CompletionsUsage }.
End models.

Module views.
(** Modelled from the spec: [browser_use.llm.views] is not among the
    sources; a completion result is the text and the three counters. *)
Record ChatInvokeUsage : Type :=
  { prompt_tokens : Z; completion_tokens : Z; total_tokens : Z }.
Record ChatInvokeCompletion : Type :=
  { completion : string; usage : ChatInvokeUsage }.
End views.

(** A Python float is an IEEE 754 double; the adapter only carries it. *)
Abbreviation float := spec_float.

(** Values that travel as keyword arguments to the SDK. *)
Inductive pyval : Type :=
  | PyNone
  | PyBool (b : bool)
  | PyInt (n : Z)
  | PyFloat (x : float)
  | PyStr (s : string)
  | PyMessages (ms : list models.ChatRequestMessage).

(** ** The SDK client and the process state *)

(** [azure.core.credentials.AzureKeyCredential(key)]. *)
Record AzureKeyCredential : Type := { key : option string }.

(** [azure.ai.inference.aio.ChatCompletionsClient(endpoint=, credential=)].
    A client is an object with an identity ([client_id], fresh at each
    construction) that records what it was built from. *)
Record ChatCompletionsClient : Type :=
  { client_id : nat;
    client_endpoint : option string;
    client_credential : AzureKeyCredential }.

(** What the code can observe or change outside the adapter instance:
    [os.environ], the clients constructed so far, and the requests handed to
    the SDK (client used, keyword arguments), oldest first. *)
Record world : Type :=
  { environ : gmap string string;
    clients : list ChatCompletionsClient;
    calls : list (ChatCompletionsClient * gmap string pyval) }.

(** ** The adapter instance *)

Record ChatAzureFoundry : Type :=
  { model : string;
    endpoint : option string;
    api_key : option string;
    temperature : float;
    max_tokens : Z;
    _client : option ChatCompletionsClient }.

(** The defaults of the dataclass fields. *)
Definition DEFAULT_TEMPERATURE : float := S754_zero false.
Definition DEFAULT_MAX_TOKENS : Z := 1000.

Record state : Type := { self : ChatAzureFoundry; proc : world }.

(** ** The monad of methods: state passing with exceptions *)

Definition M (A : Type) : Type := state -> result A * state.

Definition ret {A} (a : A) : M A := fun s => (Ok a, s).

Definition bind {A B} (m : M A) (k : A -> M B) : M B :=
  fun s => match m s with
           | (Ok a, s') => k a s'
           | (Raise e, s') => (Raise e, s')
           end.

Definition raise {A} (e : exn) : M A := fun s => (Raise e, s).

Definition lift {A} (r : result A) : M A := fun s => (r, s).

Declare Scope py_scope.
Delimit Scope py_scope with py.
Notation "x <~ m ;; k" := (bind m (fun x => k))
  (at level 100, m at next level, right associativity) : py_scope.
Notation "m ;;; k" := (bind m (fun _ => k))
  (at level 100, right associativity) : py_scope.
Open Scope py_scope.

(** Attribute reads and writes on [self]. *)
Definition getattr {A} (f : ChatAzureFoundry -> A) : M A :=
  fun s => (Ok (f (self s)), s).

Definition set_endpoint (v : option string) : M unit :=
  fun s => let a := self s in
    (Ok tt, {| self := {| model := model a; endpoint := v;
                          api_key := api_key a; temperature := temperature a;
                          max_tokens := max_tokens a; _client := _client a |};
               proc := proc s |}).

Definition set_api_key (v : option string) : M unit :=
  fun s => let a := self s in
    (Ok tt, {| self := {| model := model a; endpoint := endpoint a;
                          api_key := v; temperature := temperature a;
                          max_tokens := max_tokens a; _client := _client a |};
               proc := proc s |}).

Definition set__client (v : option ChatCompletionsClient) : M unit :=
  fun s => let a := self s in
    (Ok tt, {| self := {| model := model a; endpoint := endpoint a;
                          api_key := api_key a; temperature := temperature a;
                          max_tokens := max_tokens a; _client := v |};
               proc := proc s |}).

(** [os.getenv(name)]. *)
Definition getenv (name : string) : M (option string) :=
  fun s => (Ok (environ (proc s) !! name), s).

(** Constructing an SDK client allocates a new object and does nothing else. *)
Definition new_ChatCompletionsClient
    (ep : option string) (cred : AzureKeyCredential) : M ChatCompletionsClient :=
  fun s => let w := proc s in
    let c := {| client_id := length (clients w);
                client_endpoint := ep; client_credential := cred |} in
    (Ok c, {| self := self s;
              proc := {| environ := environ w;
                         clients := clients w ++ [c];
                         calls := calls w |} |}).

(** ** Calls with keyword arguments *)

(** [f(k1=v1, ..., kn=vn, **extra)]: the interpreter builds one keyword
    dictionary before [f] is entered.  A name of [extra] that repeats one of
    the written keywords raises [TypeError] ("got multiple values for keyword
    argument") at the call site, so [f] is never entered. *)
Definition call_kwargs (named : list (string * pyval))
    (extra : gmap string pyval) : result (gmap string pyval) :=
  if forallb (fun k => bool_decide (extra !! k = None)) named.*1
  then Ok (list_to_map named ∪ extra)
  else Raise TypeError.

(** [xs[0]]. *)
Definition index0 {A} (xs : list A) : result A :=
  match xs with
  | x :: _ => Ok x
  | [] => Raise IndexError
  end.

(** ** Methods of [ChatAzureFoundry] *)

Definition ENDPOINT_VAR : string := "AZURE_INFERENCE_ENDPOINT".
Definition CREDENTIAL_VAR : string := "AZURE_INFERENCE_CREDENTIAL".
Definition MISSING_MSG : string :=
  "Azure Inference Endpoint and API Key must be provided.".

Definition __post_init__ : M unit :=
  e <~ getattr endpoint ;;
  e_env <~ getenv ENDPOINT_VAR ;;
  set_endpoint (py_or e e_env) ;;;
  k <~ getattr api_key ;;
  k_env <~ getenv CREDENTIAL_VAR ;;
  set_api_key (py_or k k_env) ;;;
  e <~ getattr endpoint ;;
  k <~ getattr api_key ;;
  if negb (truthy e) || negb (truthy k)
  then raise (ValueError MISSING_MSG)
  else ret tt.

(** The dataclass constructor: the generated [__init__] stores the
    arguments, sets [_client] to its default [None] and runs
    [__post_init__]; the instance exists for the caller only if that
    returns. *)
Definition construct (model_ : string) (endpoint_ api_key_ : option string)
    (temperature_ : float) (max_tokens_ : Z)
    (w : world) : result ChatAzureFoundry * world :=
  let fresh := {| model := model_; endpoint := endpoint_; api_key := api_key_;
                  temperature := temperature_; max_tokens := max_tokens_;
                  _client := None |} in
  match __post_init__ {| self := fresh; proc := w |} with
  | (Ok _, s) => (Ok (self s), proc s)
  | (Raise e, s) => (Raise e, proc s)
  end.

Definition provider : M string := ret "azure_foundry".

(** [not self._client]: an SDK client object is truthy, [None] is not. *)
Definition get_client : M ChatCompletionsClient :=
  c <~ getattr _client ;;
  match c with
  | Some cl => ret cl
  | None =>
      e <~ getattr endpoint ;;
      k <~ getattr api_key ;;
      cl <~ new_ChatCompletionsClient e {| key := k |} ;;
      set__client (Some cl) ;;;
      ret cl
  end.

(** The loop body of the message conversion: [append] on a recognised role,
    nothing otherwise. *)
Definition format_step (formatted_messages : list models.ChatRequestMessage)
    (msg : messages.BaseMessage) : list models.ChatRequestMessage :=
  if String.eqb (messages.role msg) "system" then
    formatted_messages ++ [models.SystemMessage (messages.content msg)]
  else if String.eqb (messages.role msg) "user" then
    formatted_messages ++ [models.UserMessage (messages.content msg)]
  else if String.eqb (messages.role msg) "assistant" then
    formatted_messages ++ [models.AssistantMessage (messages.content msg)]
  else formatted_messages.

Definition format_messages (msgs : list messages.BaseMessage)
    : list models.ChatRequestMessage :=
  fold_left format_step msgs [].

Section Transport.

(** The SDK's [complete] coroutine, awaited: given the history of the
    process, the client and the keyword arguments, it returns a response or
    raises.  Everything behind it (network, authentication) is the SDK's. *)
Variable sdk_complete :
  world -> ChatCompletionsClient -> gmap string pyval ->
  result models.ChatCompletions.

(** [await client.complete(...)] with the merged keywords: the request is
    logged, then answered. *)
Definition complete (client : ChatCompletionsClient)
    (args : gmap string pyval) : M models.ChatCompletions :=
  fun s => let w := proc s in
    (sdk_complete w client args,
     {| self := self s;
        proc := {| environ := environ w; clients := clients w;
                   calls := calls w ++ [(client, args)] |} |}).

(** The body of [ainvoke], entered once the arguments are bound: [kwargs] is
    the dictionary bound to the [**kwargs] parameter (see [receivable] for
    the names it cannot hold). *)
Definition ainvoke (msgs : list messages.BaseMessage) (output_format : pyval)
    (kwargs : gmap string pyval) : M views.ChatInvokeCompletion :=
  client <~ get_client ;;
  let formatted_messages := format_messages msgs in
  m <~ getattr model ;;
  t <~ getattr temperature ;;
  mt <~ getattr max_tokens ;;
  args <~ lift (call_kwargs [("messages", PyMessages formatted_messages);
                             ("model", PyStr m);
                             ("temperature", PyFloat t);
                             ("max_tokens", PyInt mt)] kwargs) ;;
  response <~ complete client args ;;
  choice <~ lift (index0 (models.choices response)) ;;
  let content := models.content (models.message choice) in
  let usage :=
    {| views.prompt_tokens := models.prompt_tokens (models.usage response);
       views.completion_tokens := models.completion_tokens (models.usage response);
       views.total_tokens := models.total_tokens (models.usage response) |} in
  ret {| views.completion := content; views.usage := usage |}.

End Transport.

(** * Vocabulary of the statements *)

(** The keywords the adapter writes itself in the call to the SDK. *)
Definition FIXED : list string :=
  ["messages"; "model"; "temperature"; "max_tokens"].

(** The caller's extra options use none of the written keywords. *)
Definition no_collision (kwargs : gmap string pyval) : Prop :=
  Forall (fun k => kwargs !! k = None) FIXED.

#[global] Instance no_collision_dec kwargs : Decision (no_collision kwargs).
Proof. unfold no_collision. apply _. Defined.

(** The keyword dictionary of a request without collision. *)
Definition request (a : ChatAzureFoundry) (msgs : list messages.BaseMessage)
    (kwargs : gmap string pyval) : gmap string pyval :=
  list_to_map [("messages", PyMessages (format_messages msgs));
               ("model", PyStr (model a));
               ("temperature", PyFloat (temperature a));
               ("max_tokens", PyInt (max_tokens a))] ∪ kwargs.

(** The client [get_client] hands out in a state, and the state it leaves. *)
Definition the_client (s : state) : ChatCompletionsClient :=
  match _client (self s) with
  | Some c => c
  | None => {| client_id := length (clients (proc s));
               client_endpoint := endpoint (self s);
               client_credential := {| key := api_key (self s) |} |}
  end.

Definition after_get_client (s : state) : state := snd (get_client s).

Definition log_call (s : state) (c : ChatCompletionsClient)
    (args : gmap string pyval) : state :=
  {| self := self s;
     proc := {| environ := environ (proc s); clients := clients (proc s);
                calls := calls (proc s) ++ [(c, args)] |} |}.

(** The roles the conversion knows. *)
Definition recognised (m : messages.BaseMessage) : bool :=
  String.eqb (messages.role m) "system"
  || String.eqb (messages.role m) "user"
  || String.eqb (messages.role m) "assistant".

(** [represents m r]: [r] is the SDK message class for the role of [m],
    carrying the content of [m] unchanged. *)
Inductive represents :
    messages.BaseMessage -> models.ChatRequestMessage -> Prop :=
  | rep_system c :
      represents {| messages.role := "system"; messages.content := c |}
                 (models.SystemMessage c)
  | rep_user c :
      represents {| messages.role := "user"; messages.content := c |}
                 (models.UserMessage c)
  | rep_assistant c :
      represents {| messages.role := "assistant"; messages.content := c |}
                 (models.AssistantMessage c).

(** Both settings were checked to be present and non-empty. *)
Definition validated (c : ChatCompletionsClient) : Prop :=
  truthy (client_endpoint c) = true /\ truthy (key (client_credential c)) = true.

(** The result built from a response whose first choice is [ch]. *)
Definition completion_of (ch : models.ChatChoice) (u : models.CompletionsUsage)
    : views.ChatInvokeCompletion :=
  {| views.completion := models.content (models.message ch);
     views.usage := {| views.prompt_tokens := models.prompt_tokens u;
                       views.completion_tokens := models.completion_tokens u;
                       views.total_tokens := models.total_tokens u |} |}.

(** A setting is missing when it is [None] or the empty string: the two
    values [not x] cannot tell apart. *)
Definition missing (o : option string) : Prop := o = None \/ o = Some "".

(** The instance [construct] returns when both settings resolve. *)
Definition resolved (m : string) (e k : option string) (t : float) (mt : Z)
    (w : world) : ChatAzureFoundry :=
  {| model := m;
     endpoint := py_or e (environ w !! ENDPOINT_VAR);
     api_key := py_or k (environ w !! CREDENTIAL_VAR);
     temperature := t; max_tokens := mt; _client := None |}.

(** ** The states an adapter can be in *)

Definition set_environ (env : gmap string string) (s : state) : state :=
  {| self := self s;
     proc := {| environ := env; clients := clients (proc s);
                calls := calls (proc s) |} |}.

Section States.

Variable sdk :
  world -> ChatCompletionsClient -> gmap string pyval ->
  result models.ChatCompletions.

(** An adapter comes into being through its constructor, in a process that
    has not talked to the SDK yet, and is then used through its methods; the
    environment may change in between. *)
Inductive reachable : state -> Prop :=
  | reach_construct m e k t mt w a w' :
      clients w = [] -> calls w = [] ->
      construct m e k t mt w = (Ok a, w') ->
      reachable {| self := a; proc := w' |}
  | reach_provider s :
      reachable s -> reachable (snd (provider s))
  | reach_get_client s :
      reachable s -> reachable (snd (get_client s))
  | reach_ainvoke s msgs fmt kwargs :
      reachable s -> reachable (snd (ainvoke sdk msgs fmt kwargs s))
  | reach_environ s env :
      reachable s -> reachable (set_environ env s).

End States.

(** What stays true of a state once the constructor has returned. *)
Definition inv (s : state) : Prop :=
  truthy (endpoint (self s)) = true
  /\ truthy (api_key (self s)) = true
  /\ (forall c, _client (self s) = Some c -> validated c)
  /\ Forall validated (clients (proc s))
  /\ Forall (fun p => validated p.1) (calls (proc s)).

(** The merge as the specification words it (C4): the SDK is entered once
    and every extra option reaches it with the caller's value, also when its
    name is one of the keywords the adapter writes itself. *)
Definition extras_override
    (sdk : world -> ChatCompletionsClient -> gmap string pyval
           -> result models.ChatCompletions)
    (msgs : list messages.BaseMessage) (fmt : pyval)
    (kwargs : gmap string pyval) (s : state) : Prop :=
  exists c args,
    calls (proc (snd (ainvoke sdk msgs fmt kwargs s)))
      = (calls (proc s) ++ [(c, args)])%list
    /\ forall k v, kwargs !! k = Some v -> args !! k = Some v.

(** ** Concrete inputs *)

Definition empty_world : world :=
  {| environ := ∅; clients := []; calls := [] |}.

Definition demo_world : world :=
  {| environ := {[ ENDPOINT_VAR := "https://models.example";
                   CREDENTIAL_VAR := "secret" ]};
     clients := []; calls := [] |}.

Definition demo_adapter : ChatAzureFoundry :=
  resolved "gpt-4o" None None DEFAULT_TEMPERATURE DEFAULT_MAX_TOKENS demo_world.

Definition demo_state : state := {| self := demo_adapter; proc := demo_world |}.

Definition hello_response : models.ChatCompletions :=
  {| models.choices :=
       [ {| models.message := {| models.content := "hello" |} |} ];
     models.usage := {| models.prompt_tokens := 3; models.completion_tokens := 2;
                        models.total_tokens := 5 |} |}.

(** A stub transport that answers every request with [hello_response]. *)
Definition stub_hello (_ : world) (_ : ChatCompletionsClient)
    (_ : gmap string pyval) : result models.ChatCompletions :=
  Ok hello_response.

(** A stub transport that raises on invocation. *)
Definition stub_raise (_ : world) (_ : ChatCompletionsClient)
    (_ : gmap string pyval) : result models.ChatCompletions :=
  Raise (SdkError "connection refused").

Definition three_messages : list messages.BaseMessage :=
  [ {| messages.role := "system"; messages.content := "s" |};
    {| messages.role := "user"; messages.content := "u" |};
    {| messages.role := "assistant"; messages.content := "a" |} ].

Definition tool_message : messages.BaseMessage :=
  {| messages.role := "tool"; messages.content := "t" |}.

(** ** Further vocabulary *)

(** The call returned rather than raised. *)
Definition is_ok {A} (r : result A) : bool :=
  match r with
  | Ok _ => true
  | Raise _ => false
  end.

(** The process holds exactly the client the instance has memoised, if any,
    and every request so far went through it. *)
Definition single_client (s : state) : Prop :=
  clients (proc s) = match _client (self s) with
                     | Some c => [c]
                     | None => []
                     end
  /\ Forall (fun p => _client (self s) = Some p.1) (calls (proc s)).

(** A response that carries no choice. *)
Definition no_choice_response : models.ChatCompletions :=
  {| models.choices := [];
     models.usage := {| models.prompt_tokens := 3; models.completion_tokens := 0;
                        models.total_tokens := 3 |} |}.

(** A stub transport that answers every request with [no_choice_response]. *)
Definition stub_no_choice (_ : world) (_ : ChatCompletionsClient)
    (_ : gmap string pyval) : result models.ChatCompletions :=
  Ok no_choice_response.

(** [present o v]: the setting is given, as the non-empty text [v]. *)
Definition present (o : option string) (v : string) : Prop :=
  o = Some v /\ v <> "".

(** [resolves arg env v]: the setting resolves to [v], from the argument
    when that is given and non-empty, from the environment otherwise. *)
Definition resolves (arg env : option string) (v : string) : Prop :=
  present arg v \/ (missing arg /\ present env v).

(** Neither the argument nor the environment gives the setting. *)
Definition unresolved (arg env : option string) : Prop :=
  missing arg /\ missing env.

(** The dictionaries the [**kwargs] parameter of [ainvoke] can be bound to.
    A keyword named like one of the method's own parameters ([self],
    [messages], [output_format]) is bound to that parameter, or refused
    when the parameter also has a positional value, before the body runs;
    it never lands in [kwargs]. *)
Definition receivable (kwargs : gmap string pyval) : Prop :=
  kwargs !! "self" = None
  /\ kwargs !! "messages" = None
  /\ kwargs !! "output_format" = None.

(** * Lemmas *)

(** ** Running the methods *)

Lemma get_client_run s : get_client s = (Ok (the_client s), after_get_client s).
Proof.
  unfold after_get_client, the_client, get_client, bind, getattr.
  destruct (_client (self s)); reflexivity.
Qed.

Lemma get_client_cached s c :
  _client (self s) = Some c -> get_client s = (Ok c, s).
Proof.
  intros H. unfold get_client, bind, getattr. rewrite H. reflexivity.
Qed.

Lemma after_get_client_cached s c :
  _client (self s) = Some c -> after_get_client s = s.
Proof. intros H. unfold after_get_client. by rewrite (get_client_cached s c). Qed.

Lemma after_get_client_client s :
  _client (self (after_get_client s)) = Some (the_client s).
Proof.
  unfold after_get_client, the_client, get_client, bind, getattr.
  destruct (_client (self s)) eqn:E; simpl; [done | reflexivity].
Qed.

Lemma after_get_client_fields s :
  let s1 := after_get_client s in
  model (self s1) = model (self s) /\ endpoint (self s1) = endpoint (self s)
  /\ api_key (self s1) = api_key (self s)
  /\ temperature (self s1) = temperature (self s)
  /\ max_tokens (self s1) = max_tokens (self s)
  /\ environ (proc s1) = environ (proc s) /\ calls (proc s1) = calls (proc s).
Proof.
  unfold after_get_client, get_client, bind, getattr.
  destruct (_client (self s)); simpl; repeat split; reflexivity.
Qed.

Lemma after_get_client_clients s :
  clients (proc (after_get_client s)) =
    match _client (self s) with
    | Some _ => clients (proc s)
    | None => (clients (proc s) ++ [the_client s])%list
    end.
Proof.
  unfold after_get_client, the_client, get_client, bind, getattr.
  destruct (_client (self s)); reflexivity.
Qed.

Lemma call_kwargs_ok named kwargs :
  Forall (fun k => kwargs !! k = None) named.*1 ->
  call_kwargs named kwargs = Ok (list_to_map named ∪ kwargs).
Proof.
  intros H. unfold call_kwargs.
  replace (forallb _ _) with true; [done |].
  symmetry. apply forallb_forall. intros k Hk.
  apply bool_decide_eq_true_2. rewrite Forall_forall in H. apply H.
  by apply list_elem_of_In.
Qed.

Lemma call_kwargs_collision named kwargs :
  ~ Forall (fun k => kwargs !! k = None) named.*1 ->
  call_kwargs named kwargs = Raise TypeError.
Proof.
  intros H. unfold call_kwargs.
  destruct (forallb _ _) eqn:E; [| done].
  exfalso. apply H. rewrite Forall_forall. intros k Hk.
  rewrite forallb_forall in E. specialize (E k).
  eapply bool_decide_eq_true_1, E. by apply list_elem_of_In.
Qed.

Section Running.

Variable sdk :
  world -> ChatCompletionsClient -> gmap string pyval ->
  result models.ChatCompletions.

(** With colliding options the call is refused before the SDK is entered. *)
Lemma ainvoke_collision msgs fmt kwargs s :
  ~ no_collision kwargs ->
  ainvoke sdk msgs fmt kwargs s = (Raise TypeError, after_get_client s).
Proof.
  intros H. unfold ainvoke, bind at 1. rewrite get_client_run.
  unfold bind, getattr, lift. rewrite call_kwargs_collision; done.
Qed.

(** Without collision the SDK is entered once, and its answer decides. *)
Lemma ainvoke_run msgs fmt kwargs s :
  no_collision kwargs ->
  ainvoke sdk msgs fmt kwargs s =
    let s1 := after_get_client s in
    let c := the_client s in
    let args := request (self s) msgs kwargs in
    (match sdk (proc s1) c args with
     | Ok r => match models.choices r with
               | ch :: _ => Ok (completion_of ch (models.usage r))
               | [] => Raise IndexError
               end
     | Raise e => Raise e
     end, log_call s1 c args).
Proof.
  intros H. unfold ainvoke, bind at 1. rewrite get_client_run.
  unfold bind, getattr, lift. rewrite call_kwargs_ok by exact H.
  destruct (after_get_client_fields s) as (Hm & _ & _ & Ht & Hx & _).
  simpl in Hm, Ht, Hx. rewrite Hm, Ht, Hx. fold (request (self s) msgs kwargs).
  unfold complete, log_call. simpl.
  destruct (sdk _ _ _) as [r|e]; [| done].
  destruct (models.choices r); reflexivity.
Qed.

End Running.

(** ** Construction *)

Lemma truthy_false o : truthy o = false <-> missing o.
Proof.
  unfold missing. destruct o as [s|]; simpl.
  - rewrite negb_false_iff, String.eqb_eq. split.
    + intros ->. by right.
    + intros [H | [= ->]]; done.
  - split; [by left | done].
Qed.

Lemma py_or_present arg env v : present arg v -> py_or arg env = Some v.
Proof.
  intros [-> Hv]. unfold py_or. simpl.
  apply String.eqb_neq in Hv. by rewrite Hv.
Qed.

Lemma py_or_missing arg env : missing arg -> py_or arg env = env.
Proof. intros [-> | ->]; reflexivity. Qed.

Lemma py_or_resolves arg env v : resolves arg env v -> py_or arg env = Some v.
Proof.
  intros [H | [Hm [-> Hv]]]; [by apply py_or_present |].
  by rewrite py_or_missing.
Qed.

Lemma truthy_present v : v <> "" -> truthy (Some v) = true.
Proof. intros Hv. simpl. apply String.eqb_neq in Hv. by rewrite Hv. Qed.

Lemma resolves_or_unresolved arg env :
  unresolved arg env \/ exists v, resolves arg env v.
Proof.
  unfold unresolved, resolves, present, missing.
  destruct arg as [a|].
  - destruct (decide (a = "")) as [-> | Ha]; [| right; exists a; by left].
    destruct env as [b|]; [| left; auto].
    destruct (decide (b = "")) as [-> | Hb]; [left; auto |].
    right. exists b. right. auto.
  - destruct env as [b|]; [| left; auto].
    destruct (decide (b = "")) as [-> | Hb]; [left; auto |].
    right. exists b. right. auto.
Qed.

Lemma construct_run m e k t mt w :
  construct m e k t mt w =
    (if truthy (py_or e (environ w !! ENDPOINT_VAR))
        && truthy (py_or k (environ w !! CREDENTIAL_VAR))
     then Ok (resolved m e k t mt w)
     else Raise (ValueError MISSING_MSG), w).
Proof.
  unfold construct, __post_init__, bind, getattr, getenv, set_endpoint,
    set_api_key, resolved. simpl.
  destruct (truthy (py_or e _)), (truthy (py_or k _)); reflexivity.
Qed.

Lemma construct_ok_inv m e k t mt w a w' :
  construct m e k t mt w = (Ok a, w') ->
  a = resolved m e k t mt w /\ w' = w
  /\ truthy (endpoint a) = true /\ truthy (api_key a) = true.
Proof.
  rewrite construct_run.
  destruct (truthy (py_or e _)) eqn:He, (truthy (py_or k _)) eqn:Hk;
    simpl; intros [= <- <-]; auto.
Qed.

(** ** The invariant of reachable states *)

Section Reachability.

Variable sdk :
  world -> ChatCompletionsClient -> gmap string pyval ->
  result models.ChatCompletions.

Lemma inv_the_client s : inv s -> validated (the_client s).
Proof.
  intros (He & Hk & Hc & _). unfold the_client.
  destruct (_client (self s)) as [c|] eqn:E; [by apply Hc |].
  split; assumption.
Qed.

Lemma inv_get_client s : inv s -> inv (after_get_client s).
Proof.
  intros H. pose proof (inv_the_client s H) as Hv.
  destruct H as (He & Hk & Hc & Hcl & Hca).
  destruct (after_get_client_fields s) as (_ & He' & Hk' & _ & _ & _ & Hca').
  simpl in He', Hk', Hca'.
  split; [| split; [| split; [| split]]].
  - by rewrite He'.
  - by rewrite Hk'.
  - intros c. rewrite after_get_client_client. by intros [= <-].
  - rewrite after_get_client_clients.
    destruct (_client (self s)); [done |].
    apply Forall_app. split; [done |]. by apply Forall_singleton.
  - by rewrite Hca'.
Qed.

Lemma inv_log_call s c args : inv s -> validated c -> inv (log_call s c args).
Proof.
  intros (He & Hk & Hc & Hcl & Hca) Hv. unfold inv, log_call. simpl.
  split; [done |]. split; [done |]. split; [exact Hc |]. split; [done |].
  apply Forall_app. split; [done |]. by apply Forall_singleton.
Qed.

Lemma inv_ainvoke s msgs fmt kwargs :
  inv s -> inv (snd (ainvoke sdk msgs fmt kwargs s)).
Proof.
  intros H. destruct (decide (no_collision kwargs)) as [Hn | Hn].
  - rewrite ainvoke_run by exact Hn. simpl.
    apply inv_log_call; [by apply inv_get_client | by apply inv_the_client].
  - rewrite ainvoke_collision by exact Hn. simpl. by apply inv_get_client.
Qed.

Lemma reachable_inv s : reachable sdk s -> inv s.
Proof.
  induction 1 as [m e k t mt w a w' Hcl Hca Hc | s _ IH | s _ IH
                 | s msgs fmt kwargs _ IH | s env _ IH].
  - apply construct_ok_inv in Hc as (-> & -> & He & Hk).
    unfold inv. simpl. rewrite Hcl, Hca.
    split; [done |]. split; [done |]. split; [done |]. split; constructor.
  - exact IH.
  - by apply inv_get_client.
  - by apply inv_ainvoke.
  - exact IH.
Qed.

End Reachability.

(** ** Message conversion *)

Lemma format_step_app acc m : format_step acc m = (acc ++ format_step [] m)%list.
Proof.
  unfold format_step.
  repeat (destruct (String.eqb _ _); [reflexivity |]).
  by rewrite app_nil_r.
Qed.

Lemma fold_format_step ms : forall acc,
  fold_left format_step ms acc = (acc ++ format_messages ms)%list.
Proof.
  unfold format_messages.
  induction ms as [| m ms IH]; intros acc; simpl.
  - by rewrite app_nil_r.
  - rewrite IH, (IH (format_step [] m)), (format_step_app acc m).
    by rewrite app_assoc.
Qed.

Lemma format_messages_cons m ms :
  format_messages (m :: ms) = (format_step [] m ++ format_messages ms)%list.
Proof. unfold format_messages at 1. simpl. apply fold_format_step. Qed.

Lemma format_messages_app ms1 ms2 :
  format_messages (ms1 ++ ms2) = (format_messages ms1 ++ format_messages ms2)%list.
Proof.
  unfold format_messages at 1 2. rewrite fold_left_app. apply fold_format_step.
Qed.

Lemma format_step_recognised m :
  recognised m = true -> exists r, format_step [] m = [r] /\ represents m r.
Proof.
  destruct m as [role content]. unfold recognised, format_step. simpl.
  destruct (String.eqb role "system") eqn:E1.
  { apply String.eqb_eq in E1 as ->. eexists. split; [done | constructor]. }
  destruct (String.eqb role "user") eqn:E2.
  { apply String.eqb_eq in E2 as ->. eexists. split; [done | constructor]. }
  destruct (String.eqb role "assistant") eqn:E3; [| done].
  apply String.eqb_eq in E3 as ->. eexists. split; [done | constructor].
Qed.

Lemma format_step_unrecognised m : recognised m = false -> format_step [] m = [].
Proof.
  unfold recognised, format_step.
  destruct (String.eqb _ "system"); [done |].
  destruct (String.eqb _ "user"); [done |].
  destruct (String.eqb _ "assistant"); done.
Qed.

Lemma format_messages_filter ms :
  format_messages ms = format_messages (List.filter recognised ms).
Proof.
  induction ms as [| m ms IH]; [done |].
  simpl. destruct (recognised m) eqn:E.
  - by rewrite !format_messages_cons, IH.
  - by rewrite format_messages_cons, format_step_unrecognised.
Qed.

Lemma format_messages_represents ms :
  Forall2 represents (List.filter recognised ms) (format_messages ms).
Proof.
  induction ms as [| m ms IH]; [constructor |].
  rewrite format_messages_cons. simpl. destruct (recognised m) eqn:E.
  - destruct (format_step_recognised m E) as (r & -> & Hr). by constructor.
  - by rewrite format_step_unrecognised.
Qed.

Lemma format_messages_length ms :
  length (format_messages ms)
    + length (List.filter (fun m => negb (recognised m)) ms) = length ms.
Proof.
  induction ms as [| m ms IH]; [done |].
  rewrite format_messages_cons, length_app. simpl.
  destruct (recognised m) eqn:E; simpl.
  - destruct (format_step_recognised m E) as (r & -> & _). simpl. lia.
  - rewrite format_step_unrecognised by done. simpl. lia.
Qed.

Lemma format_messages_length_all ms :
  Forall (fun m => recognised m = true) ms ->
  length (format_messages ms) = length ms.
Proof.
  induction 1 as [| m ms Hm _ IH]; [done |].
  rewrite format_messages_cons, length_app, IH.
  by destruct (format_step_recognised m Hm) as (r & -> & _).
Qed.

(** ** The request handed to the SDK *)

Lemma request_fixed a msgs kwargs :
  no_collision kwargs ->
  request a msgs kwargs !! "messages" = Some (PyMessages (format_messages msgs))
  /\ request a msgs kwargs !! "model" = Some (PyStr (model a))
  /\ request a msgs kwargs !! "temperature" = Some (PyFloat (temperature a))
  /\ request a msgs kwargs !! "max_tokens" = Some (PyInt (max_tokens a)).
Proof.
  intros _. unfold request.
  repeat split; apply lookup_union_Some_l; reflexivity.
Qed.

Lemma request_extra a msgs kwargs k :
  k ∉ FIXED -> request a msgs kwargs !! k = kwargs !! k.
Proof.
  intros Hk. unfold request. apply lookup_union_r.
  apply not_elem_of_list_to_map_1. simpl. exact Hk.
Qed.

Lemma request_extra_Some a msgs kwargs k v :
  no_collision kwargs -> kwargs !! k = Some v ->
  request a msgs kwargs !! k = Some v.
Proof.
  intros Hn Hv. rewrite request_extra; [done |].
  intros Hk. unfold no_collision in Hn. rewrite Forall_forall in Hn.
  specialize (Hn k Hk). congruence.
Qed.

(** * Claims *)

(** C1. Construction resolves endpoint and credential each from the
    argument when that is given and non-empty, and from the environment
    variable otherwise.  If for either of them neither source gives a value
    (absent, or empty, which the check cannot tell from absent) it raises the
    configuration error and leaves the process state as it was: no client is
    built and nothing is sent.  If both resolve, from argument or environment,
    construction succeeds and the instance holds the resolved values.  Every
    configuration is in one of the two cases. *)
Theorem construct_validates_settings m e k t mt w :
  let env_e := environ w !! ENDPOINT_VAR in
  let env_k := environ w !! CREDENTIAL_VAR in
  (unresolved e env_e \/ unresolved k env_k ->
     construct m e k t mt w = (Raise (ValueError MISSING_MSG), w))
  /\ (forall ve vk, resolves e env_e ve -> resolves k env_k vk ->
     construct m e k t mt w =
       (Ok {| model := m; endpoint := Some ve; api_key := Some vk;
              temperature := t; max_tokens := mt; _client := None |}, w))
  /\ ((unresolved e env_e \/ unresolved k env_k)
      \/ exists ve vk, resolves e env_e ve /\ resolves k env_k vk).
Proof.
  intros env_e env_k. split; [| split].
  - rewrite construct_run. fold env_e env_k.
    intros [[Ha Hb] | [Ha Hb]]; rewrite (py_or_missing _ _ Ha);
      apply truthy_false in Hb; rewrite Hb;
      [done | by rewrite andb_false_r].
  - intros ve vk He Hk. rewrite construct_run. unfold resolved.
    fold env_e env_k.
    assert (Hve : ve <> "") by (destruct He as [[_ H] | [_ [_ H]]]; exact H).
    assert (Hvk : vk <> "") by (destruct Hk as [[_ H] | [_ [_ H]]]; exact H).
    rewrite (py_or_resolves _ _ _ He), (py_or_resolves _ _ _ Hk).
    by rewrite !truthy_present.
  - destruct (resolves_or_unresolved e env_e) as [He | [ve He]]; [auto |].
    destruct (resolves_or_unresolved k env_k) as [Hk | [vk Hk]]; [auto |].
    right. by exists ve, vk.
Qed.

Lemma construct_validates_settings_witness :
  construct "gpt-4o" None (Some "secret") DEFAULT_TEMPERATURE
      DEFAULT_MAX_TOKENS empty_world
    = (Raise (ValueError MISSING_MSG), empty_world)
  /\ construct "gpt-4o" (Some "https://other.example") None
       DEFAULT_TEMPERATURE DEFAULT_MAX_TOKENS demo_world
    = (Ok {| model := "gpt-4o"; endpoint := Some "https://other.example";
             api_key := Some "secret"; temperature := DEFAULT_TEMPERATURE;
             max_tokens := DEFAULT_MAX_TOKENS; _client := None |}, demo_world).
Proof.
  split.
  - apply (proj1 (construct_validates_settings "gpt-4o" None (Some "secret")
                    DEFAULT_TEMPERATURE DEFAULT_MAX_TOKENS empty_world)).
    left. split; left; reflexivity.
  - apply (proj1 (proj2 (construct_validates_settings "gpt-4o"
                           (Some "https://other.example") None
                           DEFAULT_TEMPERATURE DEFAULT_MAX_TOKENS demo_world))).
    + left. split; [reflexivity | discriminate].
    + right. split; [by left |]. split; [reflexivity | discriminate].
Defined.

(** C2. The sequence handed to the SDK holds, for the messages with role
    system, user or assistant, their role-specific SDK message, in input order
    and with the content unchanged; the three-message example gives exactly
    three entries in that order; and that sequence is the [messages] keyword
    of the request the SDK receives. *)
Theorem format_messages_in_order sdk msgs fmt kwargs s :
  Forall2 represents (List.filter recognised msgs) (format_messages msgs)
  /\ format_messages three_messages
       = [models.SystemMessage "s"; models.UserMessage "u";
          models.AssistantMessage "a"]
  /\ (no_collision kwargs ->
      exists args,
        calls (proc (snd (ainvoke sdk msgs fmt kwargs s)))
          = (calls (proc s) ++ [(the_client s, args)])%list
        /\ args !! "messages" = Some (PyMessages (format_messages msgs))).
Proof.
  split; [apply format_messages_represents |]. split; [reflexivity |].
  intros Hn. exists (request (self s) msgs kwargs).
  rewrite ainvoke_run by exact Hn. simpl.
  destruct (after_get_client_fields s) as (_ & _ & _ & _ & _ & _ & ->).
  split; [reflexivity |]. by apply request_fixed.
Qed.

Lemma format_messages_in_order_witness :
  exists args,
    calls (proc (snd (ainvoke stub_hello three_messages PyNone ∅ demo_state)))
      = [(the_client demo_state, args)]
    /\ args !! "messages"
       = Some (PyMessages [models.SystemMessage "s"; models.UserMessage "u";
                           models.AssistantMessage "a"]).
Proof.
  apply (proj2 (proj2 (format_messages_in_order
                         stub_hello three_messages PyNone ∅ demo_state))).
  unfold no_collision, FIXED. repeat constructor.
Defined.

(** C3. A message whose role is not system, user or assistant is left out
    of the sequence without any error: the sequence is shorter than the input
    by the number of such messages, removing one such message from the input
    changes nothing, and a call behaves exactly as if those messages had not
    been passed. *)
Theorem unrecognised_roles_dropped sdk msgs fmt kwargs s :
  length (format_messages msgs)
    + length (List.filter (fun m => negb (recognised m)) msgs) = length msgs
  /\ (forall pre m post, recognised m = false ->
        format_messages (pre ++ m :: post) = format_messages (pre ++ post)
        /\ (Forall (fun x => recognised x = true) (pre ++ post) ->
            S (length (format_messages (pre ++ m :: post)))
              = length (pre ++ m :: post)))
  /\ format_messages (three_messages ++ [tool_message])
       = format_messages three_messages
  /\ ainvoke sdk msgs fmt kwargs s
       = ainvoke sdk (List.filter recognised msgs) fmt kwargs s.
Proof.
  split; [apply format_messages_length |]. split.
  - intros pre m post Hm. split.
    + rewrite !format_messages_app, format_messages_cons.
      by rewrite format_step_unrecognised.
    + intros Hall.
      rewrite !format_messages_app, format_messages_cons.
      rewrite format_step_unrecognised by done. simpl.
      rewrite <- format_messages_app, format_messages_length_all by done.
      rewrite !length_app. simpl. lia.
  - split; [reflexivity |].
    unfold ainvoke. by rewrite (format_messages_filter msgs).
Qed.

Lemma unrecognised_roles_dropped_witness :
  format_messages ([] ++ tool_message :: three_messages)
    = format_messages ([] ++ three_messages)
  /\ S (length (format_messages ([] ++ tool_message :: three_messages)))
     = length ([] ++ tool_message :: three_messages).
Proof.
  destruct (unrecognised_roles_dropped stub_hello [] PyNone ∅ demo_state)
    as (_ & H & _).
  destruct (H [] tool_message three_messages eq_refl) as [H1 H2].
  split; [exact H1 |]. apply H2. repeat constructor.
Defined.

(** C4 fails on a collision: with the extra option [model="other"] the call
    raises [TypeError] at the call site and the SDK is never entered. *)
Lemma extras_override_counterexample :
  ainvoke stub_hello three_messages PyNone {[ "model" := PyStr "other" ]}
      demo_state
    = (Raise TypeError, after_get_client demo_state)
  /\ ~ extras_override stub_hello three_messages PyNone
         {[ "model" := PyStr "other" ]} demo_state.
Proof.
  assert (Hc : ~ no_collision
                   ({[ "model" := PyStr "other" ]} : gmap string pyval)).
  { unfold no_collision, FIXED. intros H.
    apply Forall_cons_1 in H as [_ H]. apply Forall_cons_1 in H as [H _].
    rewrite lookup_singleton_eq in H. discriminate H. }
  split; [by apply ainvoke_collision |].
  intros (c & args & H & _).
  rewrite (ainvoke_collision stub_hello three_messages PyNone _ demo_state Hc)
    in H.
  vm_compute in H. discriminate H.
Qed.

(** C4, amended.  Extra options whose names differ from [messages], [model],
    [temperature] and [max_tokens] are merged into the single request next to
    the converted messages and the configured model, temperature and
    max-token limit, each with the caller's value.  An extra option that
    repeats one of those four names makes the call raise [TypeError] before
    the SDK is entered: nothing is overridden and nothing is sent. *)
Theorem extra_options_merged_or_refused sdk msgs fmt kwargs s :
  (no_collision kwargs ->
     exists args,
       calls (proc (snd (ainvoke sdk msgs fmt kwargs s)))
         = (calls (proc s) ++ [(the_client s, args)])%list
       /\ args !! "messages" = Some (PyMessages (format_messages msgs))
       /\ args !! "model" = Some (PyStr (model (self s)))
       /\ args !! "temperature" = Some (PyFloat (temperature (self s)))
       /\ args !! "max_tokens" = Some (PyInt (max_tokens (self s)))
       /\ (forall k v, kwargs !! k = Some v -> args !! k = Some v)
       /\ (forall k, k ∉ FIXED -> args !! k = kwargs !! k))
  /\ (~ no_collision kwargs ->
     fst (ainvoke sdk msgs fmt kwargs s) = Raise TypeError
     /\ calls (proc (snd (ainvoke sdk msgs fmt kwargs s))) = calls (proc s)).
Proof.
  destruct (after_get_client_fields s) as (_ & _ & _ & _ & _ & _ & Hca).
  simpl in Hca. split; intros Hn.
  - exists (request (self s) msgs kwargs).
    rewrite ainvoke_run by exact Hn. simpl. rewrite Hca.
    split; [reflexivity |].
    destruct (request_fixed (self s) msgs kwargs Hn) as (H1 & H2 & H3 & H4).
    do 4 (split; [assumption |]). split.
    + intros k v. by apply request_extra_Some.
    + intros k. apply request_extra.
  - rewrite ainvoke_collision by exact Hn. simpl. by rewrite Hca.
Qed.

Lemma extra_options_merged_or_refused_witness :
  (exists args,
     calls (proc (snd (ainvoke stub_hello three_messages PyNone
                         {[ "top_p" := PyInt 1 ]} demo_state)))
       = [(the_client demo_state, args)]
     /\ args !! "model" = Some (PyStr "gpt-4o")
     /\ args !! "top_p" = Some (PyInt 1))
  /\ fst (ainvoke stub_hello three_messages PyNone
            {[ "max_tokens" := PyInt 5 ]} demo_state) = Raise TypeError.
Proof.
  split.
  - destruct (proj1 (extra_options_merged_or_refused stub_hello three_messages
                       PyNone {[ "top_p" := PyInt 1 ]} demo_state))
      as (args & H1 & _ & H2 & _ & _ & H3 & _).
    { unfold no_collision, FIXED. repeat constructor. }
    exists args. split; [exact H1 |]. split; [exact H2 |].
    apply H3. reflexivity.
  - apply (proj2 (extra_options_merged_or_refused stub_hello three_messages
                    PyNone {[ "max_tokens" := PyInt 5 ]} demo_state)).
    unfold no_collision, FIXED. intros H.
    do 3 apply Forall_cons_1 in H as [_ H]. apply Forall_cons_1 in H as [H _].
    discriminate H.
Defined.

(** C5. When the SDK answers the request with a response, the call returns
    the content of the first choice's message as completion, and the
    response's prompt, completion and total token counts as usage; the stub
    answering "hello" with usage 3, 2, 5 gives exactly that. *)
Theorem completion_from_first_choice sdk msgs fmt kwargs s r ch rest :
  no_collision kwargs ->
  sdk (proc (after_get_client s)) (the_client s) (request (self s) msgs kwargs)
    = Ok r ->
  models.choices r = ch :: rest ->
  fst (ainvoke sdk msgs fmt kwargs s) =
    Ok {| views.completion := models.content (models.message ch);
          views.usage :=
            {| views.prompt_tokens := models.prompt_tokens (models.usage r);
               views.completion_tokens := models.completion_tokens (models.usage r);
               views.total_tokens := models.total_tokens (models.usage r) |} |}.
Proof.
  intros Hn Hr Hch. rewrite ainvoke_run by exact Hn. simpl.
  rewrite Hr, Hch. reflexivity.
Qed.

Lemma completion_from_first_choice_witness :
  fst (ainvoke stub_hello three_messages PyNone ∅ demo_state) =
    Ok {| views.completion := "hello";
          views.usage := {| views.prompt_tokens := 3; views.completion_tokens := 2;
                            views.total_tokens := 5 |} |}.
Proof.
  apply (completion_from_first_choice stub_hello three_messages PyNone ∅
           demo_state hello_response
           {| models.message := {| models.content := "hello" |} |} []).
  - unfold no_collision, FIXED. repeat constructor.
  - reflexivity.
  - reflexivity.
Defined.

(** C6. The first call of [get_client] on an instance without a client
    builds one from the instance's endpoint and credential and stores it; a
    second call returns that very client and changes nothing, and so does
    every later call, also after requests have been made in between: no client
    is ever built again. *)
Theorem get_client_memoised sdk s :
  let c := the_client s in
  let s1 := after_get_client s in
  get_client s = (Ok c, s1)
  /\ get_client s1 = (Ok c, s1)
  /\ (_client (self s) = None ->
      clients (proc s1) = (clients (proc s) ++ [c])%list
      /\ client_endpoint c = endpoint (self s)
      /\ client_credential c = {| key := api_key (self s) |})
  /\ (forall n, Nat.iter n after_get_client s1 = s1)
  /\ (forall msgs fmt kwargs,
        let s2 := snd (ainvoke sdk msgs fmt kwargs s1) in
        get_client s2 = (Ok c, s2)
        /\ clients (proc s2) = clients (proc s1)).
Proof.
  intros c s1.
  assert (Hs1 : _client (self s1) = Some c) by apply after_get_client_client.
  assert (Hfix : after_get_client s1 = s1)
    by by apply (after_get_client_cached s1 c).
  split; [apply get_client_run |].
  split; [by apply get_client_cached |]. split.
  - intros Hnone. subst c s1. rewrite after_get_client_clients.
    unfold the_client. rewrite Hnone. done.
  - split.
    + induction n as [| n IH]; [done |]. simpl. by rewrite IH.
    + intros msgs fmt kwargs s2. subst s2.
      destruct (decide (no_collision kwargs)) as [Hn | Hn].
      * rewrite ainvoke_run by exact Hn. simpl. rewrite Hfix.
        split; [| reflexivity]. by apply get_client_cached.
      * rewrite ainvoke_collision by exact Hn. simpl. rewrite Hfix.
        split; [| reflexivity]. by apply get_client_cached.
Qed.

Lemma get_client_memoised_witness :
  clients (proc (after_get_client demo_state))
    = [the_client demo_state]
  /\ client_endpoint (the_client demo_state) = Some "https://models.example"
  /\ client_credential (the_client demo_state) = {| key := Some "secret" |}.
Proof.
  destruct (get_client_memoised stub_hello demo_state) as (_ & _ & H & _).
  apply H. reflexivity.
Defined.

(** C7. When the SDK raises on the request, the call raises that same
    error; the SDK was entered once for it, and the adapter did nothing else. *)
Theorem transport_error_propagates sdk msgs fmt kwargs s e :
  no_collision kwargs ->
  sdk (proc (after_get_client s)) (the_client s) (request (self s) msgs kwargs)
    = Raise e ->
  ainvoke sdk msgs fmt kwargs s
    = (Raise e, log_call (after_get_client s) (the_client s)
                  (request (self s) msgs kwargs))
  /\ calls (proc (snd (ainvoke sdk msgs fmt kwargs s)))
     = (calls (proc s) ++ [(the_client s, request (self s) msgs kwargs)])%list.
Proof.
  intros Hn He. rewrite ainvoke_run by exact Hn. simpl. rewrite He.
  split; [reflexivity |].
  destruct (after_get_client_fields s) as (_ & _ & _ & _ & _ & _ & Hca).
  simpl in Hca. by rewrite Hca.
Qed.

Lemma transport_error_propagates_witness :
  fst (ainvoke stub_raise three_messages PyNone ∅ demo_state)
    = Raise (SdkError "connection refused")
  /\ length (calls (proc (snd (ainvoke stub_raise three_messages PyNone ∅
                                 demo_state)))) = 1.
Proof.
  destruct (transport_error_propagates stub_raise three_messages PyNone ∅
              demo_state (SdkError "connection refused")) as [H1 H2].
  - unfold no_collision, FIXED. repeat constructor.
  - reflexivity.
  - split; [by rewrite H1 | by rewrite H2, length_app].
Defined.

(** C8. Two calls in the same state that differ only in [output_format]
    have the same outcome: the same result or error, the same requests
    handed to the SDK, the same final state. *)
Theorem output_format_ignored sdk msgs fmt1 fmt2 kwargs s :
  ainvoke sdk msgs fmt1 kwargs s = ainvoke sdk msgs fmt2 kwargs s
  /\ fst (ainvoke sdk msgs fmt1 kwargs s) = fst (ainvoke sdk msgs fmt2 kwargs s)
  /\ calls (proc (snd (ainvoke sdk msgs fmt1 kwargs s)))
     = calls (proc (snd (ainvoke sdk msgs fmt2 kwargs s))).
Proof. repeat split. Qed.

(** C9. In every state an adapter can reach from its constructor, the
    endpoint and the credential are present and non-empty, every client built
    and every request handed to the SDK so far used such a pair, and so does
    any request a further call makes. *)
Theorem calls_only_after_validation sdk s :
  reachable sdk s ->
  ~ missing (endpoint (self s)) /\ ~ missing (api_key (self s))
  /\ Forall (fun p => validated p.1) (calls (proc s))
  /\ forall msgs fmt kwargs,
       Forall (fun p => validated p.1)
         (calls (proc (snd (ainvoke sdk msgs fmt kwargs s)))).
Proof.
  intros Hr. pose proof (reachable_inv sdk s Hr) as Hi.
  destruct Hi as (He & Hk & Hc & Hcl & Hca).
  split; [rewrite <- truthy_false; congruence |].
  split; [rewrite <- truthy_false; congruence |].
  split; [exact Hca |].
  intros msgs fmt kwargs.
  apply (reachable_inv sdk), reach_ainvoke, Hr.
Qed.

Lemma calls_only_after_validation_witness :
  Forall (fun p => validated p.1)
    (calls (proc (snd (ainvoke stub_hello three_messages PyNone ∅ demo_state)))).
Proof.
  apply (calls_only_after_validation stub_hello
           (snd (ainvoke stub_hello three_messages PyNone ∅ demo_state))).
  apply reach_ainvoke.
  apply (reach_construct stub_hello "gpt-4o" None None DEFAULT_TEMPERATURE
           DEFAULT_MAX_TOKENS demo_world); reflexivity.
Defined.

(** C10. An endpoint or API key passed as the empty string is handled as if
    it had not been passed: the value from the environment takes its place,
    construction succeeds exactly when the values so resolved are both
    non-empty and raises the configuration error otherwise, and no client is
    ever built from an empty endpoint or key. *)
Theorem empty_string_counts_as_absent sdk m e k t mt w s :
  construct m (Some "") k t mt w = construct m None k t mt w
  /\ construct m e (Some "") t mt w = construct m e None t mt w
  /\ construct m (Some "") k t mt w =
       (if truthy (environ w !! ENDPOINT_VAR)
           && truthy (py_or k (environ w !! CREDENTIAL_VAR))
        then Ok {| model := m; endpoint := environ w !! ENDPOINT_VAR;
                   api_key := py_or k (environ w !! CREDENTIAL_VAR);
                   temperature := t; max_tokens := mt; _client := None |}
        else Raise (ValueError MISSING_MSG), w)
  /\ construct m e (Some "") t mt w =
       (if truthy (py_or e (environ w !! ENDPOINT_VAR))
           && truthy (environ w !! CREDENTIAL_VAR)
        then Ok {| model := m; endpoint := py_or e (environ w !! ENDPOINT_VAR);
                   api_key := environ w !! CREDENTIAL_VAR;
                   temperature := t; max_tokens := mt; _client := None |}
        else Raise (ValueError MISSING_MSG), w)
  /\ (reachable sdk s ->
      Forall (fun c => client_endpoint c <> Some ""
                       /\ key (client_credential c) <> Some "")
        (clients (proc (after_get_client s)))).
Proof.
  split; [by rewrite !construct_run |]. split; [by rewrite !construct_run |].
  split; [by rewrite construct_run |]. split; [by rewrite construct_run |].
  intros Hr.
  pose proof (reachable_inv sdk _ (reach_get_client sdk s Hr)) as Hi.
  destruct Hi as (_ & _ & _ & Hcl & _).
  eapply Forall_impl; [exact Hcl |].
  intros c [H1 H2]. split; intros E.
  - rewrite E in H1. discriminate H1.
  - rewrite E in H2. discriminate H2.
Qed.

Lemma empty_string_counts_as_absent_witness :
  Forall (fun c => client_endpoint c <> Some ""
                   /\ key (client_credential c) <> Some "")
    (clients (proc (after_get_client
       {| self := resolved "gpt-4o" (Some "") (Some "") DEFAULT_TEMPERATURE
                    DEFAULT_MAX_TOKENS demo_world;
          proc := demo_world |}))).
Proof.
  apply (empty_string_counts_as_absent stub_hello "gpt-4o" None None
           DEFAULT_TEMPERATURE DEFAULT_MAX_TOKENS demo_world).
  apply (reach_construct stub_hello "gpt-4o" (Some "") (Some "")
           DEFAULT_TEMPERATURE DEFAULT_MAX_TOKENS demo_world); reflexivity.
Defined.

(** * Further properties of the adapter *)

(** ** Helper lemmas *)

Lemma represents_inj m1 m2 r : represents m1 r -> represents m2 r -> m1 = m2.
Proof. intros H1 H2. destruct H1; inversion H2; reflexivity. Qed.

Lemma Forall2_represents_inj ms1 ms2 rs :
  Forall2 represents ms1 rs -> Forall2 represents ms2 rs -> ms1 = ms2.
Proof.
  intros H. revert ms2.
  induction H as [| m r ms rs Hr _ IH]; intros ms2 H2; inversion H2; subst.
  - reflexivity.
  - f_equal; [by eapply represents_inj | by apply IH].
Qed.

Lemma format_messages_nil_iff ms :
  format_messages ms = [] <-> Forall (fun m => recognised m = false) ms.
Proof.
  induction ms as [| m ms IH]; [by split; [constructor |] |].
  rewrite format_messages_cons, Forall_cons. destruct (recognised m) eqn:E.
  - destruct (format_step_recognised m E) as (r & -> & _).
    split; [done | intros [? _]; done].
  - rewrite format_step_unrecognised by done. simpl. rewrite IH. tauto.
Qed.

Lemma format_messages_rev ms :
  format_messages (rev ms) = rev (format_messages ms).
Proof.
  induction ms as [| m ms IH]; [done |].
  simpl.
  rewrite format_messages_app, (format_messages_cons m ms), rev_app_distr, IH.
  f_equal. unfold format_messages. simpl. unfold format_step.
  repeat (destruct (String.eqb _ _); [reflexivity |]). reflexivity.
Qed.

Lemma single_client_get_client s :
  single_client s ->
  single_client (after_get_client s)
  /\ _client (self (after_get_client s)) = Some (the_client s).
Proof.
  intros [Hcl Hca]. split; [| apply after_get_client_client].
  unfold single_client.
  rewrite after_get_client_client, after_get_client_clients.
  destruct (after_get_client_fields s) as (_ & _ & _ & _ & _ & _ & Hc).
  simpl in Hc. rewrite Hc. unfold the_client in *.
  destruct (_client (self s)) as [c|] eqn:E.
  - split; [exact Hcl | exact Hca].
  - rewrite Hcl. split; [reflexivity |].
    destruct (calls (proc s)) as [| p ps]; [constructor |].
    apply Forall_cons_1 in Hca as [Hp _]. discriminate Hp.
Qed.

Lemma single_client_log_call s c args :
  single_client s -> _client (self s) = Some c ->
  single_client (log_call s c args).
Proof.
  intros [Hcl Hca] Hc. unfold single_client, log_call. simpl.
  split; [exact Hcl |].
  apply Forall_app. split; [exact Hca |]. by apply Forall_singleton.
Qed.

Section MoreRunning.

Variable sdk :
  world -> ChatCompletionsClient -> gmap string pyval ->
  result models.ChatCompletions.

(** Whatever the outcome, the state after a call is the one [get_client]
    leaves, with the request logged when there was no collision. *)
Lemma ainvoke_state msgs fmt kwargs s :
  snd (ainvoke sdk msgs fmt kwargs s) =
    if decide (no_collision kwargs)
    then log_call (after_get_client s) (the_client s)
           (request (self s) msgs kwargs)
    else after_get_client s.
Proof.
  destruct (decide (no_collision kwargs)) as [Hn | Hn].
  - by rewrite ainvoke_run.
  - by rewrite ainvoke_collision.
Qed.

Lemma single_client_ainvoke msgs fmt kwargs s :
  single_client s -> single_client (snd (ainvoke sdk msgs fmt kwargs s)).
Proof.
  intros H. destruct (single_client_get_client s H) as [H1 H2].
  rewrite ainvoke_state. destruct (decide (no_collision kwargs)); [| exact H1].
  by apply single_client_log_call.
Qed.

Lemma reachable_single_client s : reachable sdk s -> single_client s.
Proof.
  induction 1 as [m e k t mt w a w' Hcl Hca Hc | s _ IH | s _ IH
                 | s msgs fmt kwargs _ IH | s env _ IH].
  - apply construct_ok_inv in Hc as (-> & -> & _).
    unfold single_client. simpl. rewrite Hcl, Hca. split; constructor.
  - exact IH.
  - by apply single_client_get_client.
  - by apply single_client_ainvoke.
  - exact IH.
Qed.

End MoreRunning.

(** ** Construction beyond the claims *)

(** X1. A non-empty endpoint or key passed to the constructor is the one
    the instance keeps, whatever the environment holds; with both passed
    non-empty the constructor succeeds in every environment. *)
Theorem explicit_arguments_win m e k k0 e0 t mt w :
  (e <> "" -> forall a w',
     construct m (Some e) k0 t mt w = (Ok a, w') -> endpoint a = Some e)
  /\ (k <> "" -> forall a w',
     construct m e0 (Some k) t mt w = (Ok a, w') -> api_key a = Some k)
  /\ (e <> "" -> k <> "" ->
     construct m (Some e) (Some k) t mt w =
       (Ok {| model := m; endpoint := Some e; api_key := Some k;
              temperature := t; max_tokens := mt; _client := None |}, w)).
Proof.
  assert (Hor : forall x o, x <> "" -> py_or (Some x) o = Some x).
  { intros x o Hx. unfold py_or. simpl.
    apply String.eqb_neq in Hx. by rewrite Hx. }
  split; [| split].
  - intros He a w' Hc. apply construct_ok_inv in Hc as (-> & _).
    simpl. by apply Hor.
  - intros Hk a w' Hc. apply construct_ok_inv in Hc as (-> & _).
    simpl. by apply Hor.
  - intros He Hk. rewrite construct_run. unfold resolved.
    rewrite !Hor by done. simpl.
    apply String.eqb_neq in He, Hk. by rewrite He, Hk.
Qed.

Lemma explicit_arguments_win_witness :
  construct "gpt-4o" (Some "https://other.example") (Some "k2")
      DEFAULT_TEMPERATURE DEFAULT_MAX_TOKENS demo_world
    = (Ok {| model := "gpt-4o"; endpoint := Some "https://other.example";
             api_key := Some "k2"; temperature := DEFAULT_TEMPERATURE;
             max_tokens := DEFAULT_MAX_TOKENS; _client := None |}, demo_world).
Proof.
  apply (proj2 (proj2 (explicit_arguments_win "gpt-4o" "https://other.example"
                         "k2" None None DEFAULT_TEMPERATURE DEFAULT_MAX_TOKENS
                         demo_world))); discriminate.
Defined.

(** X2. Of the process state the constructor reads the two environment
    variables and nothing else: in two processes that agree on them it has
    the same outcome, whatever else their environments, clients and request
    logs hold. *)
Theorem construct_reads_two_variables m e k t mt w1 w2 :
  environ w1 !! ENDPOINT_VAR = environ w2 !! ENDPOINT_VAR ->
  environ w1 !! CREDENTIAL_VAR = environ w2 !! CREDENTIAL_VAR ->
  fst (construct m e k t mt w1) = fst (construct m e k t mt w2).
Proof.
  intros He Hk. rewrite !construct_run. unfold resolved. simpl.
  by rewrite He, Hk.
Qed.

Lemma construct_reads_two_variables_witness :
  fst (construct "gpt-4o" None None DEFAULT_TEMPERATURE DEFAULT_MAX_TOKENS
         demo_world)
  = fst (construct "gpt-4o" None None DEFAULT_TEMPERATURE DEFAULT_MAX_TOKENS
           (proc (snd (ainvoke stub_hello three_messages PyNone ∅
                         (set_environ (<[ "HOME" := "/root" ]>
                                         (environ demo_world)) demo_state))))).
Proof.
  apply construct_reads_two_variables; reflexivity.
Defined.

(** X3. The constructor checks nothing but endpoint and key: whether it
    succeeds does not depend on the model name, the temperature or the token
    limit, and on success these are stored as passed (an empty model name
    or a negative limit included) with no client built yet. *)
Theorem generation_settings_unchecked m m' e k t t' mt mt' w :
  is_ok (fst (construct m e k t mt w))
    = is_ok (fst (construct m' e k t' mt' w))
  /\ (forall a w', construct m e k t mt w = (Ok a, w') ->
        model a = m /\ temperature a = t /\ max_tokens a = mt
        /\ _client a = None).
Proof.
  split.
  - rewrite !construct_run. simpl. by destruct (_ && _).
  - intros a w' Hc. by apply construct_ok_inv in Hc as (-> & _).
Qed.

Lemma generation_settings_unchecked_witness :
  exists a,
    construct "" None None (S754_infinity true) (-1) demo_world
      = (Ok a, demo_world)
    /\ model a = "" /\ temperature a = S754_infinity true
    /\ max_tokens a = (-1)%Z /\ _client a = None.
Proof.
  exists (resolved "" None None (S754_infinity true) (-1) demo_world).
  split; [reflexivity |].
  apply (proj2 (generation_settings_unchecked "" "" None None
                  (S754_infinity true) (S754_infinity true) (-1) (-1)
                  demo_world) _ demo_world).
  reflexivity.
Defined.

(** ** The client and the request log beyond the claims *)

(** X4. An adapter builds at most one client in its life: in every state
    it can reach, the process holds no client or exactly the memoised one,
    and every request so far went through that client. *)
Theorem one_client_per_adapter sdk s :
  reachable sdk s ->
  (length (clients (proc s)) <= 1)%nat
  /\ (forall c, _client (self s) = Some c -> clients (proc s) = [c])
  /\ (forall c args, (c, args) ∈ calls (proc s) ->
        _client (self s) = Some c /\ clients (proc s) = [c]).
Proof.
  intros Hr. destruct (reachable_single_client sdk s Hr) as [Hcl Hca].
  split; [| split].
  - rewrite Hcl. destruct (_client (self s)); simpl; lia.
  - intros c Hc. by rewrite Hcl, Hc.
  - intros c args Hin. rewrite Forall_forall in Hca.
    specialize (Hca _ Hin). simpl in Hca. split; [exact Hca |].
    by rewrite Hcl, Hca.
Qed.

Lemma one_client_per_adapter_witness :
  let s1 := snd (ainvoke stub_raise three_messages PyNone ∅ demo_state) in
  let s2 := snd (ainvoke stub_raise [tool_message] PyNone ∅ s1) in
  (length (clients (proc s2)) <= 1)%nat.
Proof.
  intros s1 s2.
  apply (one_client_per_adapter stub_raise s2).
  do 2 apply reach_ainvoke.
  apply (reach_construct stub_raise "gpt-4o" None None DEFAULT_TEMPERATURE
           DEFAULT_MAX_TOKENS demo_world); reflexivity.
Defined.

(** X5. A call changes nothing of the configuration and nothing of the
    environment; the clients built and the requests logged before it are all
    still there, in order, and it adds at most one client and at most one
    request. *)
Theorem ainvoke_frame sdk msgs fmt kwargs s :
  let s' := snd (ainvoke sdk msgs fmt kwargs s) in
  model (self s') = model (self s)
  /\ endpoint (self s') = endpoint (self s)
  /\ api_key (self s') = api_key (self s)
  /\ temperature (self s') = temperature (self s)
  /\ max_tokens (self s') = max_tokens (self s)
  /\ environ (proc s') = environ (proc s)
  /\ exists built sent,
       clients (proc s') = (clients (proc s) ++ built)%list
       /\ calls (proc s') = (calls (proc s) ++ sent)%list
       /\ (length built <= 1)%nat /\ (length sent <= 1)%nat.
Proof.
  intros s'. subst s'. rewrite ainvoke_state.
  destruct (after_get_client_fields s) as (Hm & He & Hk & Ht & Hx & Hv & Hc).
  simpl in Hm, He, Hk, Ht, Hx, Hv, Hc.
  pose proof (after_get_client_clients s) as Hcl.
  assert (Hb : exists built,
             clients (proc (after_get_client s))
               = (clients (proc s) ++ built)%list
             /\ (length built <= 1)%nat).
  { rewrite Hcl. destruct (_client (self s)).
    - exists []. by rewrite app_nil_r; simpl; split; [| lia].
    - eexists. split; [reflexivity | simpl; lia]. }
  destruct Hb as (built & Hb1 & Hb2).
  destruct (decide (no_collision kwargs)); simpl.
  - do 6 (split; [assumption |]). exists built. eexists.
    rewrite Hc. split; [exact Hb1 |]. split; [reflexivity |].
    split; [exact Hb2 | simpl; lia].
  - do 6 (split; [assumption |]). exists built, [].
    rewrite Hc, app_nil_r. split; [exact Hb1 |]. split; [reflexivity |].
    split; [exact Hb2 | simpl; lia].
Qed.

(** X6. A call whose extra options repeat [model], [temperature] or
    [max_tokens] is refused only after the client has been fetched: on an
    instance without a client it raises [TypeError], sends nothing, and
    still leaves a client built and memoised, which the next [get_client]
    returns.  (A keyword named [messages] never reaches the body: it is not
    among the dictionaries [kwargs] can be.) *)
Theorem refused_call_keeps_client sdk msgs fmt kwargs s :
  receivable kwargs ->
  ~ no_collision kwargs ->
  _client (self s) = None ->
  let s' := snd (ainvoke sdk msgs fmt kwargs s) in
  (is_Some (kwargs !! "model") \/ is_Some (kwargs !! "temperature")
   \/ is_Some (kwargs !! "max_tokens"))
  /\ fst (ainvoke sdk msgs fmt kwargs s) = Raise TypeError
  /\ _client (self s') = Some (the_client s)
  /\ clients (proc s') = (clients (proc s) ++ [the_client s])%list
  /\ calls (proc s') = calls (proc s)
  /\ get_client s' = (Ok (the_client s), s').
Proof.
  intros (_ & Hmsg & _) Hn Hnone s'. subst s'. split.
  - destruct (kwargs !! "model") eqn:E1; [left; eauto |].
    destruct (kwargs !! "temperature") eqn:E2; [right; left; eauto |].
    destruct (kwargs !! "max_tokens") eqn:E3; [right; right; eauto |].
    exfalso. apply Hn. unfold no_collision, FIXED. by repeat constructor.
  - rewrite ainvoke_collision by exact Hn. simpl.
    split; [reflexivity |].
    split; [apply after_get_client_client |].
    split; [by rewrite after_get_client_clients, Hnone |].
    destruct (after_get_client_fields s) as (_ & _ & _ & _ & _ & _ & Hc).
    split; [exact Hc |].
    apply get_client_cached, after_get_client_client.
Qed.

Lemma refused_call_keeps_client_witness :
  let s' := snd (ainvoke stub_hello three_messages PyNone
                   {[ "temperature" := PyInt 1 ]} demo_state) in
  _client (self s') = Some (the_client demo_state)
  /\ clients (proc s') = [the_client demo_state]
  /\ calls (proc s') = [].
Proof.
  destruct (refused_call_keeps_client stub_hello three_messages PyNone
              {[ "temperature" := PyInt 1 ]} demo_state)
    as (_ & _ & H1 & H2 & H3 & _).
  - repeat split; reflexivity.
  - unfold no_collision, FIXED. intros H.
    do 2 apply Forall_cons_1 in H as [_ H]. apply Forall_cons_1 in H as [H _].
    discriminate H.
  - reflexivity.
  - split; [exact H1 |]. split; [exact H2 | exact H3].
Defined.

(** X7. When the SDK answers with a response that has no choice, the call
    raises [IndexError]; the request has been sent by then and stays logged,
    once. *)
Theorem no_choice_raises_IndexError sdk msgs fmt kwargs s r :
  no_collision kwargs ->
  sdk (proc (after_get_client s)) (the_client s) (request (self s) msgs kwargs)
    = Ok r ->
  models.choices r = [] ->
  ainvoke sdk msgs fmt kwargs s
    = (Raise IndexError,
       log_call (after_get_client s) (the_client s)
         (request (self s) msgs kwargs))
  /\ calls (proc (snd (ainvoke sdk msgs fmt kwargs s)))
     = (calls (proc s) ++ [(the_client s, request (self s) msgs kwargs)])%list.
Proof.
  intros Hn Hr Hch. rewrite ainvoke_run by exact Hn. simpl.
  rewrite Hr, Hch. split; [reflexivity |].
  destruct (after_get_client_fields s) as (_ & _ & _ & _ & _ & _ & Hc).
  simpl in Hc. by rewrite Hc.
Qed.

Lemma no_choice_raises_IndexError_witness :
  fst (ainvoke stub_no_choice three_messages PyNone ∅ demo_state)
    = Raise IndexError
  /\ length (calls (proc (snd (ainvoke stub_no_choice three_messages PyNone ∅
                                 demo_state)))) = 1%nat.
Proof.
  destruct (no_choice_raises_IndexError stub_no_choice three_messages PyNone ∅
              demo_state no_choice_response) as [H1 H2].
  - unfold no_collision, FIXED. repeat constructor.
  - reflexivity.
  - reflexivity.
  - split; [by rewrite H1 | by rewrite H2, length_app].
Defined.

(** ** Message conversion beyond the claims *)

(** X8. The conversion yields no message exactly when no input message has
    a recognised role (the empty list included), and the call does not stop
    there: the request is sent all the same, with an empty message list. *)
Theorem nothing_recognised_still_sent sdk msgs fmt kwargs s :
  (format_messages msgs = [] <-> Forall (fun m => recognised m = false) msgs)
  /\ (no_collision kwargs ->
      Forall (fun m => recognised m = false) msgs ->
      exists args,
        calls (proc (snd (ainvoke sdk msgs fmt kwargs s)))
          = (calls (proc s) ++ [(the_client s, args)])%list
        /\ args !! "messages" = Some (PyMessages [])).
Proof.
  split; [apply format_messages_nil_iff |].
  intros Hn Hall. exists (request (self s) msgs kwargs).
  rewrite ainvoke_run by exact Hn. simpl.
  destruct (after_get_client_fields s) as (_ & _ & _ & _ & _ & _ & ->).
  split; [reflexivity |].
  destruct (request_fixed (self s) msgs kwargs Hn) as (H & _).
  rewrite H. apply format_messages_nil_iff in Hall. by rewrite Hall.
Qed.

Lemma nothing_recognised_still_sent_witness :
  exists args,
    calls (proc (snd (ainvoke stub_hello [tool_message; tool_message] PyNone ∅
                        demo_state)))
      = [(the_client demo_state, args)]
    /\ args !! "messages" = Some (PyMessages []).
Proof.
  apply (proj2 (nothing_recognised_still_sent stub_hello
                  [tool_message; tool_message] PyNone ∅ demo_state)).
  - unfold no_collision, FIXED. repeat constructor.
  - repeat constructor.
Defined.

(** X9. Each message is converted on its own: converting a concatenation
    gives the concatenation of the conversions and converting a reversed list
    gives the reversed conversion, so no message is merged with a neighbour
    or moved, and the result is never longer than the input. *)
Theorem format_messages_pointwise (ms1 ms2 : list messages.BaseMessage) :
  format_messages (ms1 ++ ms2)
    = (format_messages ms1 ++ format_messages ms2)%list
  /\ format_messages (rev ms1) = rev (format_messages ms1)
  /\ (length (format_messages ms1) <= length ms1)%nat.
Proof.
  split; [apply format_messages_app |].
  split; [apply format_messages_rev |].
  pose proof (format_messages_length ms1). lia.
Qed.

(** X10. The conversion loses nothing of the recognised messages: two
    inputs that convert to the same sequence have the same messages with
    role system, user or assistant, in the same order. *)
Theorem format_messages_injective (ms1 ms2 : list messages.BaseMessage) :
  format_messages ms1 = format_messages ms2 ->
  List.filter recognised ms1 = List.filter recognised ms2.
Proof.
  intros H.
  apply (Forall2_represents_inj _ _ (format_messages ms1)).
  - apply format_messages_represents.
  - rewrite H. apply format_messages_represents.
Qed.

Lemma format_messages_injective_witness :
  List.filter recognised (tool_message :: three_messages)
    = List.filter recognised (three_messages ++ [tool_message]).
Proof.
  apply format_messages_injective. reflexivity.
Defined.
